(** * The view-state controller of [App.tsx]

    [App] keeps eight [useState] cells and mutates them from event
    handlers; two handlers start an asynchronous call whose completion
    mutates the cells again later.  The cells become one record, every
    setter a field update, every handler the composition of the setters it
    calls in source order, and the two suspended continuations become
    transitions of their own that fire when the collaborator answers. *)

From Stdlib Require Import String ZArith List Bool Lia SpecFloat.
Import ListNotations.
Open Scope string_scope.

(** ** [types.ts] *)

(** A JavaScript [number] is an IEEE 754 double; the controller only
    stores and copies such values. *)
Definition number : Set := spec_float.

Record Coordinates := mkCoordinates {
  latitude : number;
  longitude : number;
  accuracy : option number
}.

Inductive View := home | camera | preview | analysis.

(** ** The state cells of [App] (lines 18-25) *)

Record AppState := mkAppState {
  view : View;
  imageSrc : option string;
  location : option Coordinates;
  locationError : option string;
  isLoadingLocation : bool;
  analysisResult : option string;
  isAnalyzing : bool;
  error : option string
}.

(** [useState] initial values. *)
Definition initialState : AppState :=
  {| view := home; imageSrc := None; location := None;
     locationError := None; isLoadingLocation := false;
     analysisResult := None; isAnalyzing := false; error := None |}.

Definition setView (v : View) (s : AppState) : AppState :=
  {| view := v; imageSrc := imageSrc s; location := location s;
     locationError := locationError s;
     isLoadingLocation := isLoadingLocation s;
     analysisResult := analysisResult s; isAnalyzing := isAnalyzing s;
     error := error s |}.

Definition setImageSrc (i : option string) (s : AppState) : AppState :=
  {| view := view s; imageSrc := i; location := location s;
     locationError := locationError s;
     isLoadingLocation := isLoadingLocation s;
     analysisResult := analysisResult s; isAnalyzing := isAnalyzing s;
     error := error s |}.

Definition setLocation (l : option Coordinates) (s : AppState) : AppState :=
  {| view := view s; imageSrc := imageSrc s; location := l;
     locationError := locationError s;
     isLoadingLocation := isLoadingLocation s;
     analysisResult := analysisResult s; isAnalyzing := isAnalyzing s;
     error := error s |}.

Definition setLocationError (e : option string) (s : AppState) : AppState :=
  {| view := view s; imageSrc := imageSrc s; location := location s;
     locationError := e;
     isLoadingLocation := isLoadingLocation s;
     analysisResult := analysisResult s; isAnalyzing := isAnalyzing s;
     error := error s |}.

Definition setIsLoadingLocation (b : bool) (s : AppState) : AppState :=
  {| view := view s; imageSrc := imageSrc s; location := location s;
     locationError := locationError s;
     isLoadingLocation := b;
     analysisResult := analysisResult s; isAnalyzing := isAnalyzing s;
     error := error s |}.

Definition setAnalysisResult (r : option string) (s : AppState) : AppState :=
  {| view := view s; imageSrc := imageSrc s; location := location s;
     locationError := locationError s;
     isLoadingLocation := isLoadingLocation s;
     analysisResult := r; isAnalyzing := isAnalyzing s;
     error := error s |}.

Definition setIsAnalyzing (b : bool) (s : AppState) : AppState :=
  {| view := view s; imageSrc := imageSrc s; location := location s;
     locationError := locationError s;
     isLoadingLocation := isLoadingLocation s;
     analysisResult := analysisResult s; isAnalyzing := b;
     error := error s |}.

Definition setError (e : option string) (s : AppState) : AppState :=
  {| view := view s; imageSrc := imageSrc s; location := location s;
     locationError := locationError s;
     isLoadingLocation := isLoadingLocation s;
     analysisResult := analysisResult s; isAnalyzing := isAnalyzing s;
     error := e |}.

(** Statements of a handler body run top to bottom; [s |> f |> g] is
    "do [f], then [g]". *)
Notation "s |> f" := (f s) (at level 45, left associativity, only parsing).

(** ** JavaScript values the handlers test *)

(** Truthiness of a [string | null]: [null] and the empty string are falsy. *)
Definition truthy (o : option string) : bool :=
  match o with
  | Some s => negb (s =? "")
  | None => false
  end.

(** [a || b] on a possibly missing string. *)
Definition orElse (o : option string) (fallback : string) : string :=
  if truthy o then match o with Some s => s | None => fallback end
  else fallback.

(** What [catch (err: any)] reads from the thrown value: [err.message],
    which may be missing. *)
Record JsError := mkJsError { message : option string }.

(** [GeolocationPosition.coords], the three fields the success callback
    reads. *)
Record GeoCoords := mkGeoCoords {
  coords_latitude : number;
  coords_longitude : number;
  coords_accuracy : number
}.

(** The third argument of [getCurrentPosition]. *)
Record PositionOptions := mkPositionOptions {
  enableHighAccuracy : bool;
  timeout : Z;
  maximumAge : Z
}.

(** ** Calls issued to collaborators *)

Inductive Call :=
| getCurrentPosition (opts : PositionOptions)
| analyzeImageWithLocation (image : string) (loc : option Coordinates).

(** ** Handlers *)

Module App.

(** Lines 47-57, the error callback given to [getCurrentPosition].
    [geolocationMessage] is the [let msg ... if / else if] chain. *)
Definition geolocationMessage (code : Z) : string :=
  if (code =? 1)%Z then "Location permission denied."
  else if (code =? 2)%Z then "Position unavailable."
  else if (code =? 3)%Z then "Location request timed out."
  else "Unable to retrieve location.".

Definition onPositionError (code : Z) (s : AppState) : AppState :=
  let msg := geolocationMessage code in
  s |> setLocationError (Some msg)
    |> setError (Some msg)
    |> setIsLoadingLocation false.

(** Lines 39-46, the success callback. *)
Definition onPosition (c : GeoCoords) (s : AppState) : AppState :=
  s |> setLocation (Some {| latitude := coords_latitude c;
                            longitude := coords_longitude c;
                            accuracy := Some (coords_accuracy c) |})
    |> setIsLoadingLocation false.

(** Lines 28-38 and 58, the synchronous part of [handleGetLocation];
    [supported] is the truthiness of [navigator.geolocation]. *)
Definition handleGetLocation (supported : bool) (s : AppState)
  : AppState * list Call :=
  if negb supported then
    (s |> setLocationError (Some "Geolocation is not supported by your device."),
     [])
  else
    (s |> setIsLoadingLocation true
       |> setLocationError None
       |> setError None,
     [getCurrentPosition {| enableHighAccuracy := true;
                            timeout := 15000; maximumAge := 0 |}]).

Definition handleOpenCamera (s : AppState) : AppState :=
  s |> setError None |> setView camera.

Definition handleCapture (src : string) (s : AppState) : AppState :=
  s |> setImageSrc (Some src) |> setView preview.

Definition handleCameraError (err : string) (s : AppState) : AppState :=
  s |> setError (Some err).

Definition handleRetake (s : AppState) : AppState :=
  s |> setImageSrc None |> setView camera.

(** Lines 84-92: [handleUsePhoto] up to its [await].  The guard
    [!imageSrc] returns for [null] and for the empty string. *)
Definition handleUsePhoto (s : AppState) : AppState * list Call :=
  match imageSrc s with
  | None => (s, [])
  | Some img =>
      if img =? "" then (s, [])
      else
        (s |> setIsAnalyzing true |> setError None |> setView analysis,
         [analyzeImageWithLocation img (location s)])
  end.

(** How the awaited promise settles. *)
Inductive Settled :=
| Fulfilled (result : string)
| Rejected (err : JsError).

(** Lines 93-98: the rest of [handleUsePhoto], resumed when the promise
    settles: the [try] tail or the [catch] body, then [finally]. *)
Definition handleUsePhoto_resume (o : Settled) (s : AppState) : AppState :=
  (match o with
   | Fulfilled result => s |> setAnalysisResult (Some result)
   | Rejected err => s |> setError (Some (orElse (message err) "Analysis failed."))
   end)
  |> setIsAnalyzing false.

Definition handleBackToHome (s : AppState) : AppState :=
  s |> setView home
    |> setError None
    |> setImageSrc None
    |> setAnalysisResult None.

(** Line 116, the [onClick] of the header's back button. *)
Definition headerBack (s : AppState) : AppState :=
  match view s with
  | preview => handleRetake s
  | _ => handleBackToHome s
  end.

End App.

(** ** The controls the JSX renders (lines 150-314)

    Which handler a user can reach depends on the view being rendered;
    completions of asynchronous calls arrive from the platform whatever
    the view. *)

Definition View_eqb (a b : View) : bool :=
  match a, b with
  | home, home | camera, camera | preview, preview | analysis, analysis => true
  | _, _ => false
  end.

Inductive Event :=
| GetLocation (supported : bool)   (* the GPS button, line 207 *)
| PositionSuccess (c : GeoCoords)  (* first callback of getCurrentPosition *)
| PositionError (code : Z)         (* second callback of getCurrentPosition *)
| OpenCamera                       (* line 171 *)
| Capture (src : string)           (* Camera onCapture, line 232 *)
| CameraError (err : string)       (* Camera onError, line 232 *)
| Retake                           (* line 247 *)
| UsePhoto                         (* line 250 *)
| AnalysisSettled (o : App.Settled) (* the awaited promise settles *)
| BackToHome                       (* camera back button (227), Done (304) *)
| HeaderBack.                      (* Header showBack button, line 116 *)

Definition rendered (s : AppState) (ev : Event) : bool :=
  match ev with
  | GetLocation _ | OpenCamera => View_eqb (view s) home
  | Capture _ | CameraError _ => View_eqb (view s) camera
  | Retake | UsePhoto => View_eqb (view s) preview && truthy (imageSrc s)
  | BackToHome => View_eqb (view s) camera || View_eqb (view s) analysis
  | HeaderBack =>
      (View_eqb (view s) preview && truthy (imageSrc s))
      || View_eqb (view s) analysis
  | PositionSuccess _ | PositionError _ | AnalysisSettled _ => true
  end.

(** ** The running application: state cells plus calls in flight *)

Record System := mkSystem {
  app : AppState;
  positionsPending : nat;
  analysesPending : nat
}.

Definition initialSystem : System :=
  {| app := initialState; positionsPending := 0; analysesPending := 0 |}.

Definition issue (c : Call) (sys : System) : System :=
  match c with
  | getCurrentPosition _ =>
      {| app := app sys; positionsPending := S (positionsPending sys);
         analysesPending := analysesPending sys |}
  | analyzeImageWithLocation _ _ =>
      {| app := app sys; positionsPending := positionsPending sys;
         analysesPending := S (analysesPending sys) |}
  end.

Definition withApp (sys : System) (s : AppState) : System :=
  {| app := s; positionsPending := positionsPending sys;
     analysesPending := analysesPending sys |}.

Definition perform (sys : System) (r : AppState * list Call) : System :=
  fold_right issue (withApp sys (fst r)) (snd r).

(** One event.  A completion is only possible while its call is in
    flight; every handler can be invoked in every state. *)
Definition step (sys : System) (ev : Event) : option System :=
  match ev with
  | GetLocation supported =>
      Some (perform sys (App.handleGetLocation supported (app sys)))
  | PositionSuccess c =>
      match positionsPending sys with
      | O => None
      | S n => Some {| app := App.onPosition c (app sys);
                       positionsPending := n;
                       analysesPending := analysesPending sys |}
      end
  | PositionError code =>
      match positionsPending sys with
      | O => None
      | S n => Some {| app := App.onPositionError code (app sys);
                       positionsPending := n;
                       analysesPending := analysesPending sys |}
      end
  | OpenCamera => Some (withApp sys (App.handleOpenCamera (app sys)))
  | Capture src => Some (withApp sys (App.handleCapture src (app sys)))
  | CameraError err => Some (withApp sys (App.handleCameraError err (app sys)))
  | Retake => Some (withApp sys (App.handleRetake (app sys)))
  | UsePhoto => Some (perform sys (App.handleUsePhoto (app sys)))
  | AnalysisSettled o =>
      match analysesPending sys with
      | O => None
      | S n => Some {| app := App.handleUsePhoto_resume o (app sys);
                       positionsPending := positionsPending sys;
                       analysesPending := n |}
      end
  | BackToHome => Some (withApp sys (App.handleBackToHome (app sys)))
  | HeaderBack => Some (withApp sys (App.headerBack (app sys)))
  end.

(** Policies restricting which events are considered. *)
Definition Policy := System -> Event -> bool.

Definition anyOrder : Policy := fun _ _ => true.

(** Only what the rendered view offers. *)
Definition viaUI : Policy := fun sys ev => rendered (app sys) ev.

(** Does the event run [handleBackToHome]? *)
Definition invokesBackToHome (s : AppState) (ev : Event) : bool :=
  match ev with
  | BackToHome => true
  | HeaderBack => negb (View_eqb (view s) preview)
  | _ => false
  end.

(** What the rendered view offers, with [handleBackToHome] not run while
    an analysis call is in flight. *)
Definition awaitingAnalysis : Policy := fun sys ev =>
  rendered (app sys) ev
  && (negb (invokesBackToHome (app sys) ev) || (analysesPending sys =? 0)%nat).

Inductive reachableBy (allow : Policy) : System -> Prop :=
| reach_init : reachableBy allow initialSystem
| reach_step sys ev sys' :
    reachableBy allow sys ->
    allow sys ev = true ->
    step sys ev = Some sys' ->
    reachableBy allow sys'.

Definition reachable : System -> Prop := reachableBy anyOrder.

(** Running a list of events, stopping at the first one refused. *)
Fixpoint run (allow : Policy) (sys : System) (evs : list Event)
  : option System :=
  match evs with
  | [] => Some sys
  | ev :: rest =>
      if allow sys ev then
        match step sys ev with
        | Some sys' => run allow sys' rest
        | None => None
        end
      else None
  end.

(** ** Traces used below *)

(** A photo is taken and submitted. *)
Definition submitTrace : list Event :=
  [OpenCamera; Capture "img1"; UsePhoto].

(** The user presses Done while the first analysis is still in flight,
    its answer arrives on the home screen, and a second photo is taken. *)
Definition lateAnswerTrace : list Event :=
  [OpenCamera; Capture "img1"; UsePhoto; BackToHome;
   AnalysisSettled (App.Fulfilled "A red bicycle.");
   OpenCamera; Capture "img2"].

(** The states these traces end in, written out. *)
Definition submittedSystem : System :=
  {| app := {| view := analysis; imageSrc := Some "img1"; location := None;
               locationError := None; isLoadingLocation := false;
               analysisResult := None; isAnalyzing := true; error := None |};
     positionsPending := 0; analysesPending := 1 |}.

Definition secondPreview : System :=
  {| app := {| view := preview; imageSrc := Some "img2"; location := None;
               locationError := None; isLoadingLocation := false;
               analysisResult := Some "A red bicycle.";
               isAnalyzing := false; error := None |};
     positionsPending := 0; analysesPending := 0 |}.

Definition secondSubmitted : System :=
  {| app := {| view := analysis; imageSrc := Some "img2"; location := None;
               locationError := None; isLoadingLocation := false;
               analysisResult := Some "A red bicycle.";
               isAnalyzing := true; error := None |};
     positionsPending := 0; analysesPending := 1 |}.

(** ** Two statements that are compared with the code below *)

(** "In every reachable state, in progress implies no result." *)
Definition inProgress_excludes_result : Prop :=
  forall sys, reachable sys ->
    isAnalyzing (app sys) = true -> analysisResult (app sys) = None.

(** "A failing analysis ends with the flag cleared, the result absent and
    an error set", for every state with an image in which [handleUsePhoto]
    is invoked. *)
Definition failure_ends_without_result : Prop :=
  forall s err, truthy (imageSrc s) = true ->
    let s1 := fst (App.handleUsePhoto s) in
    let s2 := App.handleUsePhoto_resume (App.Rejected err) s1 in
    isAnalyzing s1 = true /\ isAnalyzing s2 = false /\
    analysisResult s2 = None /\ error s2 <> None.

(** The invariant behind the amended in-progress property. *)
Definition oneCallAtATime (sys : System) : Prop :=
  (analysesPending sys <= 1)%nat /\
  (analysesPending sys = 1%nat ->
     view (app sys) = analysis /\ analysisResult (app sys) = None) /\
  (view (app sys) <> analysis -> analysisResult (app sys) = None) /\
  (isAnalyzing (app sys) = true -> analysesPending sys = 1%nat).

(** ** What the JSX displays (lines 136-148 and 150-314)

    The element tree is kept up to styling: which of the four view blocks
    is mounted and what it shows.  The paragraphs of the analysis text and
    the [toFixed] formatting of coordinates are left as the values they are
    computed from. *)

(** Lines 137-148: [if (!error) return null], else the banner with the
    text. *)
Definition ErrorBanner (s : AppState) : option string :=
  if negb (truthy (error s)) then None else error s.

(** Lines 276-301: [isAnalyzing ? spinner : analysisResult ? card : null];
    the card carries the tagged location when [location] is set. *)
Inductive AnalysisBody :=
| Processing
| AIAnalysis (text : string) (tagged : option Coordinates)
| NoBody.

Inductive Screen :=
| HomeScreen (banner : option string) (acquired : option Coordinates)
             (gpsLabel : string) (gpsLoading : bool)
| CameraScreen
| PreviewScreen (img : string)
| AnalysisScreen (thumbnail : option string) (body : AnalysisBody)
| NoScreen.

Definition render (s : AppState) : Screen :=
  match view s with
  | home =>
      HomeScreen (ErrorBanner s) (location s)
        (match location s with
         | Some _ => "Refresh Location"
         | None => "Get My Location"
         end)
        (isLoadingLocation s)
  | camera => CameraScreen
  | preview =>
      match imageSrc s with
      | Some img => if img =? "" then NoScreen else PreviewScreen img
      | None => NoScreen
      end
  | analysis =>
      AnalysisScreen
        (if truthy (imageSrc s) then imageSrc s else None)
        (if isAnalyzing s then Processing
         else match analysisResult s with
              | Some text =>
                  if text =? "" then NoBody else AIAnalysis text (location s)
              | None => NoBody
              end)
  end.

(** The text of the error banner on screen, if any. *)
Definition bannerText (s : AppState) : option string :=
  match render s with
  | HomeScreen banner _ _ _ => banner
  | _ => None
  end.

(** Events raised by an element of the screen, as opposed to the
    completion of a platform or network call. *)
Definition fromScreen (ev : Event) : bool :=
  match ev with
  | PositionSuccess _ | PositionError _ | AnalysisSettled _ => false
  | _ => true
  end.

(** Events of the location feature. *)
Definition isLocationEvent (ev : Event) : bool :=
  match ev with
  | GetLocation _ | PositionSuccess _ | PositionError _ => true
  | _ => false
  end.

(** What the rendered view offers, with the camera never delivering an
    empty image reference. *)
Definition nonEmptyCaptures : Policy := fun sys ev =>
  rendered (app sys) ev
  && match ev with
     | Capture src => negb (src =? "")
     | _ => true
     end.

(** The arrows between views, self loops included. *)
Definition arrow (a b : View) : bool :=
  match a, b with
  | home, camera
  | camera, preview | camera, home
  | preview, camera | preview, analysis
  | analysis, home => true
  | _, _ => View_eqb a b
  end.

(** The four texts [handleGetLocation]'s error callback can store. *)
Definition geolocationMessages : list string :=
  ["Location permission denied."; "Position unavailable.";
   "Location request timed out."; "Unable to retrieve location."].

(** Where an image is held, by view, when only the screen is used. *)
Definition imageFollowsView (s : AppState) : Prop :=
  match view s with
  | home | camera => imageSrc s = None
  | preview => imageSrc s <> None
  | analysis => truthy (imageSrc s) = true
  end.

(** On the home screen the general error is absent or a geolocation
    message. *)
Definition homeErrorIsGeolocation (s : AppState) : Prop :=
  view s = home ->
  error s = None \/ exists code, error s = Some (App.geolocationMessage code).

(** A position fix at latitude and longitude zero. *)
Definition aFix : GeoCoords :=
  {| coords_latitude := S754_zero false; coords_longitude := S754_zero false;
     coords_accuracy := S754_zero false |}.

(** Events of the photo flow that start no call. *)
Definition isCameraFlow (ev : Event) : bool :=
  match ev with
  | OpenCamera | Capture _ | CameraError _ | Retake | HeaderBack
  | BackToHome => true
  | _ => false
  end.

(** * Properties *)

(** ** Helper lemmas *)

Lemma View_eqb_eq a b : View_eqb a b = true <-> a = b.
Proof. destruct a, b; simpl; split; congruence. Qed.

Lemma truthy_Some o : truthy o = true ->
  exists img, o = Some img /\ (img =? "") = false.
Proof.
  destruct o as [img|]; simpl; [|discriminate].
  intros H. exists img. split; [reflexivity|].
  now apply negb_true_iff.
Qed.

Lemma handleUsePhoto_present s img :
  imageSrc s = Some img -> (img =? "") = false ->
  App.handleUsePhoto s =
    (setView analysis (setError None (setIsAnalyzing true s)),
     [analyzeImageWithLocation img (location s)]).
Proof. intros Hi He. unfold App.handleUsePhoto. now rewrite Hi, He. Qed.

Lemma orElse_not_empty o fb : fb <> "" -> orElse o fb <> "".
Proof.
  intros Hfb. unfold orElse. destruct o as [m|]; simpl; [|exact Hfb].
  destruct (m =? "") eqn:E; simpl; [exact Hfb|].
  intros ->. discriminate.
Qed.

Lemma run_reachable allow evs : forall sys sys',
  reachableBy allow sys -> run allow sys evs = Some sys' ->
  reachableBy allow sys'.
Proof.
  induction evs as [|ev rest IH]; simpl; intros sys sys' Hr Hrun.
  - now inversion Hrun; subst.
  - destruct (allow sys ev) eqn:Ha; [|discriminate].
    destruct (step sys ev) as [mid|] eqn:Hs; [|discriminate].
    eapply IH; [|exact Hrun]. eapply reach_step; eauto.
Qed.

Lemma reachableBy_weaken (p q : Policy) :
  (forall sys ev, p sys ev = true -> q sys ev = true) ->
  forall sys, reachableBy p sys -> reachableBy q sys.
Proof.
  intros Hpq sys H. induction H.
  - constructor.
  - eapply reach_step; eauto.
Qed.

Lemma viaUI_reachable sys : reachableBy viaUI sys -> reachable sys.
Proof. apply reachableBy_weaken. reflexivity. Qed.

Lemma submitTrace_runs :
  run awaitingAnalysis initialSystem submitTrace = Some submittedSystem.
Proof. reflexivity. Qed.

Lemma lateAnswerTrace_runs :
  run viaUI initialSystem lateAnswerTrace = Some secondPreview.
Proof. reflexivity. Qed.

Lemma secondPreview_reachable : reachableBy viaUI secondPreview.
Proof.
  eapply run_reachable; [apply reach_init | exact lateAnswerTrace_runs].
Qed.

Lemma secondSubmitted_reachable : reachableBy viaUI secondSubmitted.
Proof.
  eapply reach_step with (ev := UsePhoto);
    [exact secondPreview_reachable | reflexivity | reflexivity].
Qed.

(** [oneCallAtATime] holds initially and is kept by every event that
    [awaitingAnalysis] allows. *)

Lemma oneCallAtATime_init : oneCallAtATime initialSystem.
Proof.
  unfold oneCallAtATime; simpl. repeat split; try lia; try discriminate.
Qed.

Lemma oneCallAtATime_idle sys :
  oneCallAtATime sys -> view (app sys) <> analysis ->
  analysesPending sys = 0%nat /\ isAnalyzing (app sys) = false /\
  analysisResult (app sys) = None.
Proof.
  intros (Hle & Hone & Hview & Hflag) Hv.
  assert (H0 : analysesPending sys = 0%nat).
  { destruct (analysesPending sys) as [|[|n]]; [reflexivity| |lia].
    destruct (Hone eq_refl) as [Ha _]. contradiction. }
  repeat split; auto.
  destruct (isAnalyzing (app sys)); [|reflexivity].
  specialize (Hflag eq_refl). congruence.
Qed.

Lemma oneCallAtATime_quiet sys s' pp :
  oneCallAtATime sys ->
  view s' = view (app sys) -> analysisResult s' = analysisResult (app sys) ->
  isAnalyzing s' = isAnalyzing (app sys) ->
  oneCallAtATime {| app := s'; positionsPending := pp;
                    analysesPending := analysesPending sys |}.
Proof.
  unfold oneCallAtATime. simpl. intros H -> -> ->. exact H.
Qed.

Lemma oneCallAtATime_leave sys s' :
  oneCallAtATime sys -> view (app sys) <> analysis ->
  view s' <> analysis -> analysisResult s' = analysisResult (app sys) ->
  isAnalyzing s' = isAnalyzing (app sys) ->
  oneCallAtATime (withApp sys s').
Proof.
  intros Inv Hv Hv' Hr Hf.
  destruct (oneCallAtATime_idle sys Inv Hv) as (H0 & Hfl & Hres).
  unfold oneCallAtATime, withApp. simpl. rewrite H0, Hr, Hf, Hfl, Hres.
  repeat split; try lia; try discriminate.
Qed.

Lemma oneCallAtATime_step sys ev sys' :
  oneCallAtATime sys ->
  awaitingAnalysis sys ev = true ->
  step sys ev = Some sys' ->
  oneCallAtATime sys'.
Proof.
  intros Inv Hallow Hstep.
  unfold awaitingAnalysis in Hallow.
  apply andb_true_iff in Hallow. destruct Hallow as [Hr Hw].
  destruct ev; simpl in Hstep, Hr, Hw.
  - (* GetLocation *)
    injection Hstep as <-.
    destruct supported; unfold perform; simpl;
      apply oneCallAtATime_quiet; auto.
  - (* PositionSuccess *)
    destruct (positionsPending sys); [discriminate|]. injection Hstep as <-.
    apply oneCallAtATime_quiet; auto.
  - (* PositionError *)
    destruct (positionsPending sys); [discriminate|]. injection Hstep as <-.
    apply oneCallAtATime_quiet; auto.
  - (* OpenCamera *)
    injection Hstep as <-. apply View_eqb_eq in Hr.
    apply oneCallAtATime_leave; auto; simpl; congruence.
  - (* Capture *)
    injection Hstep as <-. apply View_eqb_eq in Hr.
    apply oneCallAtATime_leave; auto; simpl; congruence.
  - (* CameraError *)
    injection Hstep as <-. apply View_eqb_eq in Hr.
    apply oneCallAtATime_leave; auto; simpl; congruence.
  - (* Retake *)
    injection Hstep as <-. apply andb_true_iff in Hr. destruct Hr as [Hr _].
    apply View_eqb_eq in Hr.
    apply oneCallAtATime_leave; auto; simpl; congruence.
  - (* UsePhoto *)
    injection Hstep as <-. apply andb_true_iff in Hr. destruct Hr as [Hr Hi].
    apply View_eqb_eq in Hr.
    destruct (truthy_Some _ Hi) as (img & Himg & He).
    rewrite (handleUsePhoto_present _ img Himg He).
    assert (Hv : view (app sys) <> analysis) by congruence.
    destruct (oneCallAtATime_idle sys Inv Hv) as (H0 & Hfl & Hres).
    unfold oneCallAtATime, perform. simpl. rewrite H0, Hres.
    repeat split; auto.
  - (* AnalysisSettled *)
    destruct Inv as (Hle & Hone & Hview & Hflag).
    destruct (analysesPending sys) as [|n] eqn:Hn; [discriminate|].
    injection Hstep as <-.
    assert (n = 0%nat) by lia. subst n.
    destruct (Hone eq_refl) as [Hv _].
    unfold oneCallAtATime. destruct o; simpl; rewrite Hv;
      repeat split; try lia; try discriminate; try congruence.
  - (* BackToHome *)
    injection Hstep as <-. apply Nat.eqb_eq in Hw.
    destruct Inv as (Hle & Hone & Hview & Hflag).
    unfold oneCallAtATime. simpl. rewrite Hw.
    repeat split; try lia; try discriminate.
    intros Hf. specialize (Hflag Hf). congruence.
  - (* HeaderBack *)
    injection Hstep as <-. unfold App.headerBack.
    destruct (view (app sys)) eqn:Hv; simpl in Hr, Hw; try discriminate.
    + apply oneCallAtATime_leave; auto; simpl; congruence.
    + apply Nat.eqb_eq in Hw.
      destruct Inv as (Hle & Hone & Hview & Hflag).
      unfold oneCallAtATime. simpl. rewrite Hw.
      repeat split; try lia; try discriminate.
      intros Hf. specialize (Hflag Hf). congruence.
Qed.

Lemma oneCallAtATime_reachable sys :
  reachableBy awaitingAnalysis sys -> oneCallAtATime sys.
Proof.
  induction 1 as [|sys ev sys' _ IH Hallow Hstep].
  - exact oneCallAtATime_init.
  - exact (oneCallAtATime_step sys ev sys' IH Hallow Hstep).
Qed.

(** Under [awaitingAnalysis] the flag stays set for as long as the call is
    in flight. *)
Lemma inFlight_means_analyzing sys :
  reachableBy awaitingAnalysis sys ->
  (0 < analysesPending sys)%nat -> isAnalyzing (app sys) = true.
Proof.
  induction 1 as [|sys ev sys' Hreach IH Hallow Hstep].
  - simpl. lia.
  - pose proof (oneCallAtATime_reachable sys Hreach) as (Hle & _).
    unfold awaitingAnalysis in Hallow. apply andb_true_iff in Hallow.
    destruct Hallow as [Hui _].
    destruct ev; simpl in Hstep, Hui.
    + injection Hstep as <-. destruct supported; exact IH.
    + destruct (positionsPending sys); [discriminate|].
      injection Hstep as <-. exact IH.
    + destruct (positionsPending sys); [discriminate|].
      injection Hstep as <-. exact IH.
    + injection Hstep as <-. exact IH.
    + injection Hstep as <-. exact IH.
    + injection Hstep as <-. exact IH.
    + injection Hstep as <-. exact IH.
    + injection Hstep as <-. apply andb_true_iff in Hui.
      destruct Hui as [_ Ht].
      destruct (truthy_Some _ Ht) as (img & Hi & He).
      rewrite (handleUsePhoto_present _ img Hi He). reflexivity.
    + destruct (analysesPending sys) as [|n]; [discriminate|].
      injection Hstep as <-. simpl. lia.
    + injection Hstep as <-. exact IH.
    + injection Hstep as <-. unfold App.headerBack.
      destruct (view (app sys)); exact IH.
Qed.

(** ** RequestLocation *)

(** C1: a geolocation failure with code 1, 2 or 3 stores the matching
    message in both [locationError] and [error]; any other code stores
    "Unable to retrieve location." in both. *)
Theorem onPositionError_messages (s : AppState) (code : Z) :
  let s' := App.onPositionError code s in
  locationError s' = error s' /\
  (code = 1%Z -> error s' = Some "Location permission denied.") /\
  (code = 2%Z -> error s' = Some "Position unavailable.") /\
  (code = 3%Z -> error s' = Some "Location request timed out.") /\
  (code <> 1%Z -> code <> 2%Z -> code <> 3%Z ->
     error s' = Some "Unable to retrieve location.").
Proof.
  simpl. unfold App.geolocationMessage.
  split; [reflexivity|].
  repeat split; intros.
  - subst; reflexivity.
  - subst; reflexivity.
  - subst; reflexivity.
  - destruct (Z.eqb_spec code 1); [contradiction|].
    destruct (Z.eqb_spec code 2); [contradiction|].
    destruct (Z.eqb_spec code 3); [contradiction|].
    reflexivity.
Qed.

Lemma onPositionError_messages_witness :
  locationError (App.onPositionError 2 initialState) = Some "Position unavailable."
  /\ error (App.onPositionError 2 initialState) = Some "Position unavailable."
  /\ error (App.onPositionError 7 initialState) = Some "Unable to retrieve location.".
Proof.
  pose proof (onPositionError_messages initialState 2) as H2.
  pose proof (onPositionError_messages initialState 7) as H7.
  cbv zeta in H2, H7.
  destruct H2 as (Heq & _ & H2 & _).
  destruct H7 as (_ & _ & _ & _ & H7).
  split; [rewrite Heq; apply H2; reflexivity|].
  split; [apply H2; reflexivity|].
  apply H7; discriminate.
Defined.

(** ** UsePhoto without an image *)

(** C2: with [imageSrc] absent, [handleUsePhoto] returns the state it was
    given, every cell unchanged, and issues no call. *)
Theorem handleUsePhoto_no_image (s : AppState) :
  imageSrc s = None -> App.handleUsePhoto s = (s, []).
Proof. intros H. unfold App.handleUsePhoto. now rewrite H. Qed.

Lemma handleUsePhoto_no_image_witness :
  App.handleUsePhoto initialState = (initialState, []).
Proof. apply (handleUsePhoto_no_image initialState). reflexivity. Defined.

(** ** BackToHome *)

(** C3: after [handleBackToHome] the view is home, the image, the analysis
    result and the general error are absent, and [location] and
    [locationError] are what they were. *)
Theorem handleBackToHome_effect (s : AppState) :
  let s' := App.handleBackToHome s in
  view s' = home /\ imageSrc s' = None /\ analysisResult s' = None /\
  error s' = None /\
  location s' = location s /\ locationError s' = locationError s.
Proof. simpl. repeat split. Qed.

(** ** UsePhoto with an image *)

(** C5: with an image present, [handleUsePhoto] sets the flag and issues
    the analysis call; when the call succeeds with [result], the resumed
    handler clears the flag and stores [Some result].  The resumed handler
    does so in whatever state it finds at that moment. *)
Theorem handleUsePhoto_success (s : AppState) (result : string) :
  truthy (imageSrc s) = true ->
  let s1 := fst (App.handleUsePhoto s) in
  let s2 := App.handleUsePhoto_resume (App.Fulfilled result) s1 in
  (exists img, imageSrc s = Some img /\
     snd (App.handleUsePhoto s) = [analyzeImageWithLocation img (location s)]) /\
  isAnalyzing s1 = true /\
  isAnalyzing s2 = false /\
  analysisResult s2 = Some result /\ analysisResult s2 <> None /\
  (forall t, let t' := App.handleUsePhoto_resume (App.Fulfilled result) t in
     isAnalyzing t' = false /\ analysisResult t' = Some result).
Proof.
  intros Ht. destruct (truthy_Some _ Ht) as (img & Hi & He).
  simpl. rewrite (handleUsePhoto_present s img Hi He). simpl.
  split; [exists img; split; [exact Hi | reflexivity]|].
  repeat split. discriminate.
Qed.

Lemma handleUsePhoto_success_witness :
  let s := App.handleCapture "img1" (App.handleOpenCamera initialState) in
  let s2 := App.handleUsePhoto_resume (App.Fulfilled "A red bicycle.")
              (fst (App.handleUsePhoto s)) in
  isAnalyzing s2 = false /\ analysisResult s2 = Some "A red bicycle.".
Proof.
  pose proof (handleUsePhoto_success
                (App.handleCapture "img1" (App.handleOpenCamera initialState))
                "A red bicycle." eq_refl) as H.
  cbv zeta in *. destruct H as (_ & _ & Hf & Hr & _).
  split; assumption.
Defined.

(** C4, as amended: for a user of the rendered controls who never runs
    [handleBackToHome] while an analysis call is in flight, UsePhoto with
    an image present sets the flag and puts one call in flight with the
    result absent; whatever happens until the failure arrives, the flag is
    still true and the result still absent then, and handling the failure
    clears the flag, leaves the result absent and stores a general error
    that is never absent (the failure's message, or "Analysis failed." when
    the message is missing or empty).  Without that restriction, handling
    the failure still clears the flag and stores that error in whatever
    state it arrives, and does not write [analysisResult], which stays what
    it was just before the failure was handled. *)
Theorem handleUsePhoto_failure (err : JsError) :
  (forall sys,
     reachableBy awaitingAnalysis sys ->
     rendered (app sys) UsePhoto = true ->
     exists sys1,
       step sys UsePhoto = Some sys1 /\
       isAnalyzing (app sys1) = true /\
       analysesPending sys1 = 1%nat /\
       analysisResult (app sys1) = None) /\
  (forall sys,
     reachableBy awaitingAnalysis sys ->
     (0 < analysesPending sys)%nat ->
     isAnalyzing (app sys) = true /\
     analysisResult (app sys) = None /\
     exists sys',
       step sys (AnalysisSettled (App.Rejected err)) = Some sys' /\
       isAnalyzing (app sys') = false /\
       analysisResult (app sys') = None /\
       error (app sys') = Some (orElse (message err) "Analysis failed.") /\
       error (app sys') <> None /\
       analysesPending sys' = 0%nat) /\
  (forall t, let t' := App.handleUsePhoto_resume (App.Rejected err) t in
     isAnalyzing t' = false /\
     analysisResult t' = analysisResult t /\
     error t' = Some (orElse (message err) "Analysis failed.") /\
     error t' <> None /\ error t' <> Some "" /\
     (truthy (message err) = true -> error t' = message err) /\
     (message err = None -> error t' = Some "Analysis failed.")) /\
  (forall s, truthy (imageSrc s) = true ->
     isAnalyzing (fst (App.handleUsePhoto s)) = true).
Proof.
  split; [|split; [|split]].
  - intros sys Hr Hui. simpl in Hui. apply andb_true_iff in Hui.
    destruct Hui as [Hv Ht]. apply View_eqb_eq in Hv.
    pose proof (oneCallAtATime_reachable sys Hr) as Inv.
    assert (Hna : view (app sys) <> analysis) by congruence.
    destruct (oneCallAtATime_idle sys Inv Hna) as (H0 & _ & Hres).
    destruct (truthy_Some _ Ht) as (img & Hi & He).
    eexists. split; [reflexivity|].
    rewrite (handleUsePhoto_present _ img Hi He). unfold perform. simpl.
    rewrite H0, Hres. repeat split.
  - intros sys Hr Hpos.
    pose proof (oneCallAtATime_reachable sys Hr) as (Hle & Hone & _ & _).
    assert (H1 : analysesPending sys = 1%nat) by lia.
    destruct (Hone H1) as [_ Hres].
    split; [exact (inFlight_means_analyzing sys Hr Hpos)|].
    split; [exact Hres|].
    simpl. rewrite H1. eexists. split; [reflexivity|]. simpl.
    rewrite Hres. repeat split. discriminate.
  - intros t. simpl. repeat split.
    + discriminate.
    + intros H. injection H as H. revert H.
      apply orElse_not_empty. discriminate.
    + intros Hm. unfold orElse. rewrite Hm.
      destruct (message err); [reflexivity | discriminate].
    + intros Hm. rewrite Hm. reflexivity.
  - intros s Ht. destruct (truthy_Some _ Ht) as (img & Hi & He).
    rewrite (handleUsePhoto_present s img Hi He). reflexivity.
Qed.

Lemma handleUsePhoto_failure_witness :
  isAnalyzing (app submittedSystem) = true /\
  exists sys',
    step submittedSystem
      (AnalysisSettled (App.Rejected {| message := Some "quota exceeded" |}))
      = Some sys' /\
    isAnalyzing (app sys') = false /\ analysisResult (app sys') = None /\
    error (app sys') = Some "quota exceeded".
Proof.
  destruct (handleUsePhoto_failure {| message := Some "quota exceeded" |})
    as (_ & Harrive & _).
  assert (Hr : reachableBy awaitingAnalysis submittedSystem).
  { eapply run_reachable; [apply reach_init | exact submitTrace_runs]. }
  destruct (Harrive submittedSystem Hr (Nat.lt_0_succ 0))
    as (Hflag & _ & sys' & Hstep & Hf & Hres & Herr & _).
  split; [exact Hflag|].
  exists sys'. repeat split; assumption.
Defined.

(** C4, as stated, fails: in the state reached by [lateAnswerTrace] an
    image is present and the result of the earlier call is still stored;
    a failing analysis of the second photo ends with that result in
    place. *)
Lemma failure_keeps_stale_result :
  reachableBy viaUI secondPreview /\
  truthy (imageSrc (app secondPreview)) = true /\
  analysisResult
    (App.handleUsePhoto_resume (App.Rejected {| message := None |})
       (fst (App.handleUsePhoto (app secondPreview))))
    = Some "A red bicycle." /\
  ~ failure_ends_without_result.
Proof.
  split; [exact secondPreview_reachable|].
  split; [reflexivity|]. split; [reflexivity|].
  intros H.
  specialize (H (app secondPreview) {| message := None |} eq_refl).
  cbv zeta in H. destruct H as (_ & _ & Habs & _).
  discriminate Habs.
Qed.

(** ** In-progress flag and result *)

(** C6, as amended: in every state reached from the initial state through
    the controls the rendered view offers, with [handleBackToHome] never
    run while an analysis call is in flight, [isAnalyzing] being true
    implies that [analysisResult] is absent. *)
Theorem inProgress_excludes_result_awaiting (sys : System) :
  reachableBy awaitingAnalysis sys ->
  isAnalyzing (app sys) = true -> analysisResult (app sys) = None.
Proof.
  intros Hreach Hflag.
  destruct (oneCallAtATime_reachable sys Hreach) as (_ & Hone & _ & Hpending).
  apply Hone, Hpending, Hflag.
Qed.

Lemma inProgress_excludes_result_awaiting_witness :
  reachableBy awaitingAnalysis submittedSystem /\
  isAnalyzing (app submittedSystem) = true /\
  analysisResult (app submittedSystem) = None.
Proof.
  assert (Hr : reachableBy awaitingAnalysis submittedSystem).
  { eapply run_reachable; [apply reach_init | exact submitTrace_runs]. }
  split; [exact Hr|]. split; [reflexivity|].
  apply (inProgress_excludes_result_awaiting submittedSystem Hr).
  reflexivity.
Defined.

(** C6, as stated, fails: after [lateAnswerTrace] and one more UsePhoto,
    all of it offered by the rendered views, the flag is true while the
    answer to the first call is still stored. *)
Lemma inProgress_with_stale_result :
  reachableBy viaUI secondSubmitted /\
  isAnalyzing (app secondSubmitted) = true /\
  analysisResult (app secondSubmitted) = Some "A red bicycle." /\
  ~ inProgress_excludes_result.
Proof.
  split; [exact secondSubmitted_reachable|].
  split; [reflexivity|]. split; [reflexivity|].
  intros H.
  specialize (H secondSubmitted (viaUI_reachable _ secondSubmitted_reachable)
                eq_refl).
  discriminate H.
Qed.

(** ** Failures and the general error *)

(** C7, the failing case: when geolocation is unsupported,
    [handleGetLocation] stores its message in [locationError] only; the
    general error keeps whatever it held, so from the initial state it is
    still absent, and no call is issued. *)
Theorem handleGetLocation_unsupported (s : AppState) :
  let s' := fst (App.handleGetLocation false s) in
  locationError s' = Some "Geolocation is not supported by your device." /\
  error s' = error s /\
  error (fst (App.handleGetLocation false initialState)) = None /\
  snd (App.handleGetLocation false s) = [].
Proof. simpl. repeat split. Qed.

(** The other failures do reach the general error. *)
Lemma handled_failures_reach_error (s : AppState) :
  (forall code, error (App.onPositionError code s)
                = Some (App.geolocationMessage code) /\
                locationError (App.onPositionError code s)
                = Some (App.geolocationMessage code)) /\
  (forall err, error (App.handleCameraError err s) = Some err) /\
  (forall err, error (App.handleUsePhoto_resume (App.Rejected err) s)
               = Some (orElse (message err) "Analysis failed.")).
Proof. repeat split. Qed.

(** ** Preview and image *)

(** C8: in every state reachable from the initial state by any sequence
    of events, if the view is preview then [imageSrc] is not absent. *)
Theorem preview_has_image (sys : System) :
  reachable sys -> view (app sys) = preview -> imageSrc (app sys) <> None.
Proof.
  intros Hreach.
  induction Hreach as [|sys ev sys' _ IH _ Hstep].
  - discriminate.
  - destruct ev; simpl in Hstep.
    + injection Hstep as <-. destruct supported; exact IH.
    + destruct (positionsPending sys); [discriminate|].
      injection Hstep as <-. exact IH.
    + destruct (positionsPending sys); [discriminate|].
      injection Hstep as <-. exact IH.
    + injection Hstep as <-. discriminate.
    + injection Hstep as <-. discriminate.
    + injection Hstep as <-. exact IH.
    + injection Hstep as <-. discriminate.
    + injection Hstep as <-. unfold App.handleUsePhoto.
      destruct (imageSrc (app sys)) as [img|] eqn:Hi; [|simpl; now rewrite Hi].
      destruct (img =? ""); [simpl; now rewrite Hi | discriminate].
    + destruct (analysesPending sys); [discriminate|].
      injection Hstep as <-. destruct o; exact IH.
    + injection Hstep as <-. discriminate.
    + injection Hstep as <-. unfold App.headerBack.
      destruct (view (app sys)); discriminate.
Qed.

Lemma preview_has_image_witness :
  view (App.handleCapture "img1" (App.handleOpenCamera initialState)) = preview
  /\ imageSrc (App.handleCapture "img1" (App.handleOpenCamera initialState))
     <> None.
Proof.
  split; [reflexivity|].
  refine (preview_has_image
            (withApp initialSystem
               (App.handleCapture "img1" (App.handleOpenCamera initialState)))
            _ eq_refl).
  eapply run_reachable with (evs := [OpenCamera; Capture "img1"]);
    [apply reach_init | reflexivity].
Defined.

(** ** Retake and the header's back button *)

(** C9: after [handleRetake] the image is absent and the view is camera;
    the header's back button, offered in the preview view, runs exactly
    [handleRetake] when the view is preview, so it too ends in the camera
    view with the image absent, not in the home view. *)
Theorem handleRetake_and_headerBack (s : AppState) :
  (imageSrc (App.handleRetake s) = None /\ view (App.handleRetake s) = camera)
  /\
  (view s = preview ->
     App.headerBack s = App.handleRetake s /\
     view (App.headerBack s) = camera /\
     imageSrc (App.headerBack s) = None /\
     view (App.headerBack s) <> home /\
     (truthy (imageSrc s) = true -> rendered s HeaderBack = true) /\
     (forall sys, app sys = s -> step sys HeaderBack = step sys Retake)).
Proof.
  split; [split; reflexivity|].
  intros Hv. unfold App.headerBack. rewrite Hv.
  repeat split.
  - discriminate.
  - intros Ht. simpl. rewrite Hv, Ht. reflexivity.
  - intros sys <-. simpl. unfold App.headerBack. rewrite Hv. reflexivity.
Qed.

Lemma handleRetake_and_headerBack_witness :
  let s := App.handleCapture "img1" (App.handleOpenCamera initialState) in
  view s = preview /\
  App.headerBack s = App.handleRetake s /\
  view (App.headerBack s) = camera /\ imageSrc (App.headerBack s) = None.
Proof.
  pose proof (handleRetake_and_headerBack
                (App.handleCapture "img1" (App.handleOpenCamera initialState)))
    as [_ H].
  cbv zeta. specialize (H eq_refl).
  destruct H as (He & Hv & Hi & _).
  split; [reflexivity|]. split; [exact He|]. split; [exact Hv | exact Hi].
Defined.

(** ** BackToHome during an analysis *)

(** C10: [handleBackToHome] does not touch [isAnalyzing].  In the analysis
    view the Done button is offered whatever the flag; pressed while a call
    is in flight and the flag is true, it leads to the home view with the
    flag still true and the call still in flight; when that call settles
    afterwards the resumed handler still runs, in the home view: it clears
    the flag and stores the result, or else the general error. *)
Theorem handleBackToHome_keeps_flag (sys : System) :
  isAnalyzing (App.handleBackToHome (app sys)) = isAnalyzing (app sys) /\
  (view (app sys) = analysis -> rendered (app sys) BackToHome = true) /\
  (view (app sys) = analysis ->
   isAnalyzing (app sys) = true ->
   (0 < analysesPending sys)%nat ->
   exists atHome,
     step sys BackToHome = Some atHome /\
     view (app atHome) = home /\
     isAnalyzing (app atHome) = true /\
     analysesPending atHome = analysesPending sys /\
     forall o, exists after,
       step atHome (AnalysisSettled o) = Some after /\
       view (app after) = home /\
       isAnalyzing (app after) = false /\
       match o with
       | App.Fulfilled result => analysisResult (app after) = Some result
       | App.Rejected err =>
           error (app after) = Some (orElse (message err) "Analysis failed.")
       end).
Proof.
  split; [reflexivity|].
  split; [intros Hv; simpl; rewrite Hv; reflexivity|].
  intros _ Hflag Hpending.
  eexists. split; [reflexivity|]. simpl.
  split; [reflexivity|]. split; [exact Hflag|]. split; [reflexivity|].
  intros o.
  destruct (analysesPending sys) as [|n]; [lia|].
  eexists. split; [reflexivity|].
  destruct o; simpl; repeat split.
Qed.

Lemma handleBackToHome_keeps_flag_witness :
  exists atHome after,
    step submittedSystem BackToHome = Some atHome /\
    view (app atHome) = home /\ isAnalyzing (app atHome) = true /\
    step atHome (AnalysisSettled (App.Fulfilled "A red bicycle.")) = Some after /\
    view (app after) = home /\ isAnalyzing (app after) = false /\
    analysisResult (app after) = Some "A red bicycle.".
Proof.
  destruct (handleBackToHome_keeps_flag submittedSystem) as (_ & _ & H).
  destruct (H eq_refl eq_refl (Nat.lt_0_succ 0))
    as (atHome & Hs & Hv & Hf & _ & Hlater).
  destruct (Hlater (App.Fulfilled "A red bicycle."))
    as (after & Hs' & Hv' & Hf' & Hr').
  exists atHome, after. repeat split; assumption.
Defined.

(** ** The scenario of the specification, run through the model *)

Example scenario_red_bicycle :
  run viaUI initialSystem
      [OpenCamera; Capture "img1"; UsePhoto;
       AnalysisSettled (App.Fulfilled "A red bicycle.")]
  = Some {| app := {| view := analysis; imageSrc := Some "img1";
                      location := None; locationError := None;
                      isLoadingLocation := false;
                      analysisResult := Some "A red bicycle.";
                      isAnalyzing := false; error := None |};
            positionsPending := 0; analysesPending := 0 |}.
Proof. reflexivity. Qed.

(** A location request that is refused by the user. *)
Example scenario_permission_denied :
  option_map app
    (run viaUI initialSystem [GetLocation true; PositionError 1])
  = Some {| view := home; imageSrc := None; location := None;
            locationError := Some "Location permission denied.";
            isLoadingLocation := false; analysisResult := None;
            isAnalyzing := false;
            error := Some "Location permission denied." |}.
Proof. reflexivity. Qed.

(** * Further properties of the controller and of what it displays *)

(** ** Shape of a step *)

Lemma perform_handleUsePhoto sys :
  perform sys (App.handleUsePhoto (app sys)) = sys \/
  (truthy (imageSrc (app sys)) = true /\
   perform sys (App.handleUsePhoto (app sys)) =
     {| app := setView analysis (setError None (setIsAnalyzing true (app sys)));
        positionsPending := positionsPending sys;
        analysesPending := S (analysesPending sys) |}).
Proof.
  unfold App.handleUsePhoto.
  destruct (imageSrc (app sys)) as [img|] eqn:Hi.
  - destruct (img =? "") eqn:He.
    + left. destruct sys; reflexivity.
    + right. simpl. rewrite He. split; reflexivity.
  - left. destruct sys; reflexivity.
Qed.

Lemma step_location_event sys ev sys' :
  step sys ev = Some sys' ->
  isLocationEvent ev = true ->
  view (app sys') = view (app sys) /\
  imageSrc (app sys') = imageSrc (app sys) /\
  analysisResult (app sys') = analysisResult (app sys) /\
  isAnalyzing (app sys') = isAnalyzing (app sys) /\
  analysesPending sys' = analysesPending sys.
Proof.
  intros Hstep Hl.
  destruct ev; try discriminate Hl; simpl in Hstep.
  - injection Hstep as <-. destruct supported; repeat split.
  - destruct (positionsPending sys); [discriminate|].
    injection Hstep as <-. repeat split.
  - destruct (positionsPending sys); [discriminate|].
    injection Hstep as <-. repeat split.
Qed.

Lemma step_other_event sys ev sys' :
  step sys ev = Some sys' ->
  isLocationEvent ev = false ->
  location (app sys') = location (app sys) /\
  locationError (app sys') = locationError (app sys) /\
  isLoadingLocation (app sys') = isLoadingLocation (app sys) /\
  positionsPending sys' = positionsPending sys.
Proof.
  intros Hstep Hl.
  destruct ev; try discriminate Hl; simpl in Hstep;
    try (injection Hstep as <-; repeat split; fail).
  - injection Hstep as <-.
    destruct (perform_handleUsePhoto sys) as [-> | [_ ->]]; repeat split.
  - destruct (analysesPending sys); [discriminate|].
    injection Hstep as <-. destruct o; repeat split.
  - injection Hstep as <-. unfold App.headerBack.
    destruct (view (app sys)); repeat split.
Qed.

(** X1: the location feature and the photo flow do not interfere.  An
    event of the location feature leaves the view, the image, the analysis
    result, the in-progress flag and the analyses in flight as they were;
    every other event leaves the location, the location error, the loading
    flag and the position requests in flight as they were. *)
Theorem flows_independent (sys sys' : System) (ev : Event) :
  step sys ev = Some sys' ->
  (isLocationEvent ev = true ->
     view (app sys') = view (app sys) /\
     imageSrc (app sys') = imageSrc (app sys) /\
     analysisResult (app sys') = analysisResult (app sys) /\
     isAnalyzing (app sys') = isAnalyzing (app sys) /\
     analysesPending sys' = analysesPending sys) /\
  (isLocationEvent ev = false ->
     location (app sys') = location (app sys) /\
     locationError (app sys') = locationError (app sys) /\
     isLoadingLocation (app sys') = isLoadingLocation (app sys) /\
     positionsPending sys' = positionsPending sys).
Proof.
  intros Hstep. split.
  - exact (step_location_event sys ev sys' Hstep).
  - exact (step_other_event sys ev sys' Hstep).
Qed.

Lemma flows_independent_witness :
  let sys := {| app := App.onPositionError 1 initialState;
                positionsPending := 1; analysesPending := 0 |} in
  exists sys', step sys OpenCamera = Some sys' /\
    locationError (app sys') = Some "Location permission denied." /\
    positionsPending sys' = 1%nat.
Proof.
  cbv zeta. eexists. split; [reflexivity|].
  destruct (flows_independent
              {| app := App.onPositionError 1 initialState;
                 positionsPending := 1; analysesPending := 0 |}
              _ OpenCamera eq_refl) as [_ H].
  destruct (H eq_refl) as (_ & He & _ & Hp).
  split; [rewrite He; reflexivity | rewrite Hp; reflexivity].
Defined.

(** ** Flags and calls in flight *)

(** X2: in every reachable state, [isLoadingLocation] is true only while a
    position request is in flight, so the loading button is never stuck. *)
Theorem loading_has_request_in_flight (sys : System) :
  reachable sys ->
  isLoadingLocation (app sys) = true -> (0 < positionsPending sys)%nat.
Proof.
  induction 1 as [|sys ev sys' _ IH _ Hstep]; [discriminate|].
  destruct (isLocationEvent ev) eqn:Hl.
  - destruct ev; try discriminate Hl; simpl in Hstep.
    + injection Hstep as <-. destruct supported; simpl; [lia | exact IH].
    + destruct (positionsPending sys); [discriminate|].
      injection Hstep as <-. discriminate.
    + destruct (positionsPending sys); [discriminate|].
      injection Hstep as <-. discriminate.
  - destruct (step_other_event sys ev sys' Hstep Hl) as (_ & _ & -> & ->). exact IH.
Qed.

(** X3: in every reachable state, [isAnalyzing] is true only while an
    analysis call is in flight, so the spinner of the analysis view is
    never stuck. *)
Theorem analyzing_has_call_in_flight (sys : System) :
  reachable sys ->
  isAnalyzing (app sys) = true -> (0 < analysesPending sys)%nat.
Proof.
  induction 1 as [|sys ev sys' _ IH _ Hstep]; [discriminate|].
  destruct (isLocationEvent ev) eqn:Hl.
  - destruct (step_location_event sys ev sys' Hstep Hl) as (_ & _ & _ & -> & ->). exact IH.
  - destruct ev; try discriminate Hl; simpl in Hstep;
      try (injection Hstep as <-; exact IH).
    + injection Hstep as <-.
      destruct (perform_handleUsePhoto sys) as [-> | [_ ->]];
        [exact IH | simpl; lia].
    + destruct (analysesPending sys); [discriminate|].
      injection Hstep as <-. destruct o; discriminate.
    + injection Hstep as <-. unfold App.headerBack.
      destruct (view (app sys)); exact IH.
Qed.

Lemma loading_has_request_in_flight_witness :
  exists sys, run viaUI initialSystem [GetLocation true] = Some sys /\
    isLoadingLocation (app sys) = true /\ (0 < positionsPending sys)%nat.
Proof.
  eexists. split; [reflexivity|]. split; [reflexivity|].
  apply loading_has_request_in_flight; [|reflexivity].
  eapply run_reachable with (evs := [GetLocation true]);
    [apply reach_init | reflexivity].
Defined.

Lemma analyzing_has_call_in_flight_witness :
  isAnalyzing (app secondSubmitted) = true /\
  (0 < analysesPending secondSubmitted)%nat.
Proof.
  split; [reflexivity|].
  apply analyzing_has_call_in_flight; [|reflexivity].
  exact (viaUI_reachable _ secondSubmitted_reachable).
Defined.

(** ** The acquired location *)

Lemma step_location sys ev sys' :
  step sys ev = Some sys' ->
  location (app sys') = location (app sys) \/
  exists c, ev = PositionSuccess c /\
    location (app sys') =
      Some {| latitude := coords_latitude c; longitude := coords_longitude c;
              accuracy := Some (coords_accuracy c) |}.
Proof.
  intros Hstep. destruct (isLocationEvent ev) eqn:Hl.
  - destruct ev; try discriminate Hl; simpl in Hstep.
    + injection Hstep as <-. left. destruct supported; reflexivity.
    + destruct (positionsPending sys); [discriminate|].
      injection Hstep as <-. right. exists c. split; reflexivity.
    + destruct (positionsPending sys); [discriminate|].
      injection Hstep as <-. left. reflexivity.
  - left. now destruct (step_other_event sys ev sys' Hstep Hl) as (-> & _).
Qed.

(** X4: an acquired location is never lost.  Whatever events follow, the
    location stays present, and it stays the same value unless a new fix
    arrives. *)
Theorem location_never_cleared (evs : list Event) :
  forall sys sys',
    run anyOrder sys evs = Some sys' ->
    location (app sys) <> None ->
    location (app sys') <> None /\
    (forallb (fun ev => match ev with PositionSuccess _ => false | _ => true end)
       evs = true ->
     location (app sys') = location (app sys)).
Proof.
  induction evs as [|ev rest IH]; simpl; intros sys sys' Hrun Hloc.
  - injection Hrun as <-. split; [exact Hloc | reflexivity].
  - destruct (step sys ev) as [mid|] eqn:Hstep; [|discriminate].
    assert (Hmid : location (app mid) <> None).
    { destruct (step_location sys ev mid Hstep) as [-> | (c & _ & ->)];
        [exact Hloc | discriminate]. }
    destruct (IH mid sys' Hrun Hmid) as [Hne Hsame].
    split; [exact Hne|].
    intros Hall. apply andb_true_iff in Hall. destruct Hall as [Hev Hrest].
    rewrite (Hsame Hrest).
    destruct (step_location sys ev mid Hstep) as [-> | (c & -> & _)];
      [reflexivity | discriminate].
Qed.

Lemma location_never_cleared_witness :
  let sys := {| app := App.onPosition aFix initialState;
                positionsPending := 0; analysesPending := 0 |} in
  exists sys',
    run anyOrder sys [GetLocation true; PositionError 2; OpenCamera; BackToHome]
      = Some sys' /\
    location (app sys') = location (app sys) /\
    error (app sys') = None.
Proof.
  cbv zeta. eexists. split; [reflexivity|].
  split; [|reflexivity].
  refine (proj2 (location_never_cleared
            [GetLocation true; PositionError 2; OpenCamera; BackToHome]
            {| app := App.onPosition aFix initialState;
               positionsPending := 0; analysesPending := 0 |} _ eq_refl _)
            eq_refl).
  discriminate.
Defined.

(** ** Where the image is held *)

Lemma imageFollowsView_step sys ev sys' :
  imageFollowsView (app sys) ->
  viaUI sys ev = true ->
  step sys ev = Some sys' ->
  imageFollowsView (app sys').
Proof.
  intros Inv Hui Hstep. unfold viaUI in Hui.
  destruct (isLocationEvent ev) eqn:Hl.
  - destruct (step_location_event sys ev sys' Hstep Hl) as (Hv & Hi & _).
    unfold imageFollowsView in *. rewrite Hv, Hi. exact Inv.
  - unfold imageFollowsView in *.
    destruct ev; try discriminate Hl; simpl in Hstep, Hui.
    + injection Hstep as <-. apply View_eqb_eq in Hui.
      simpl. rewrite Hui in Inv. exact Inv.
    + injection Hstep as <-. simpl. discriminate.
    + injection Hstep as <-. simpl. exact Inv.
    + injection Hstep as <-. reflexivity.
    + injection Hstep as <-. apply andb_true_iff in Hui.
      destruct Hui as [_ Ht].
      destruct (truthy_Some _ Ht) as (img & Hi & He).
      rewrite (handleUsePhoto_present _ img Hi He).
      unfold perform. simpl. exact Ht.
    + destruct (analysesPending sys); [discriminate|].
      injection Hstep as <-. destruct o; exact Inv.
    + injection Hstep as <-. reflexivity.
    + injection Hstep as <-. unfold App.headerBack.
      destruct (view (app sys)); reflexivity.
Qed.

Lemma imageFollowsView_reachable sys :
  reachableBy viaUI sys -> imageFollowsView (app sys).
Proof.
  induction 1 as [|sys ev sys' _ IH Hui Hstep].
  - reflexivity.
  - exact (imageFollowsView_step sys ev sys' IH Hui Hstep).
Qed.

(** X5: when only the controls on screen are used, no image is held in the
    home and camera views, and in the analysis view a non-empty image is
    held and shown as the thumbnail. *)
Theorem image_held_only_after_capture (sys : System) :
  reachableBy viaUI sys ->
  (view (app sys) = home \/ view (app sys) = camera ->
     imageSrc (app sys) = None) /\
  (view (app sys) = analysis ->
     exists img, imageSrc (app sys) = Some img /\ img <> "" /\
       exists body, render (app sys) = AnalysisScreen (Some img) body).
Proof.
  intros Hr. pose proof (imageFollowsView_reachable sys Hr) as Inv.
  unfold imageFollowsView in Inv. split.
  - intros [Hv | Hv]; rewrite Hv in Inv; exact Inv.
  - intros Hv. rewrite Hv in Inv.
    destruct (truthy_Some _ Inv) as (img & Hi & He).
    exists img. split; [exact Hi|]. split.
    + intros ->. discriminate.
    + unfold render. rewrite Hv, Inv, Hi. eexists. reflexivity.
Qed.

Lemma image_held_only_after_capture_witness :
  imageSrc (app submittedSystem) = Some "img1" /\
  exists img, imageSrc (app submittedSystem) = Some img /\ img <> "".
Proof.
  split; [reflexivity|].
  assert (Hr : reachableBy viaUI submittedSystem).
  { eapply run_reachable with (evs := submitTrace);
      [apply reach_init | reflexivity]. }
  destruct (image_held_only_after_capture submittedSystem Hr) as [_ H].
  destruct (H eq_refl) as (img & Hi & He & _).
  exists img. split; assumption.
Defined.

(** ** Capture then Retake *)

(** X6: in a camera view reached through the screen, a capture followed by
    Retake gives back exactly the state before the capture. *)
Theorem capture_retake_round_trip (sys : System) (src : string) :
  reachableBy viaUI sys ->
  view (app sys) = camera ->
  exists mid,
    step sys (Capture src) = Some mid /\
    render (app mid) = (if src =? "" then NoScreen else PreviewScreen src) /\
    step mid Retake = Some sys.
Proof.
  intros Hr Hv.
  pose proof (imageFollowsView_reachable sys Hr) as Hnone.
  unfold imageFollowsView in Hnone. rewrite Hv in Hnone.
  eexists. split; [reflexivity|]. split; [reflexivity|].
  destruct sys as [[v img loc lerr lload res flag err] pp ap].
  simpl in *. subst. reflexivity.
Qed.

Lemma capture_retake_round_trip_witness :
  let sys := withApp initialSystem (App.handleOpenCamera initialState) in
  exists mid,
    step sys (Capture "img1") = Some mid /\
    render (app mid) = PreviewScreen "img1" /\
    step mid Retake = Some sys.
Proof.
  cbv zeta.
  refine (capture_retake_round_trip
            (withApp initialSystem (App.handleOpenCamera initialState))
            "img1" _ eq_refl).
  eapply run_reachable with (evs := [OpenCamera]);
    [apply reach_init | reflexivity].
Defined.

(** ** The empty screen *)

Lemma render_NoScreen s :
  render s = NoScreen -> view s = preview /\ truthy (imageSrc s) = false.
Proof.
  unfold render. intros Hr.
  destruct (view s) eqn:Hv; try discriminate Hr.
  split; [reflexivity|].
  destruct (imageSrc s) as [img|]; [|reflexivity]. simpl.
  destruct (img =? ""); [reflexivity | discriminate Hr].
Qed.

(** X7: nothing is mounted only in the preview view with a null or empty
    image, and then no element is left to raise any handler. *)
Theorem blank_screen_is_dead_end (s : AppState) :
  render s = NoScreen ->
  view s = preview /\ truthy (imageSrc s) = false /\
  forall ev, fromScreen ev = true -> rendered s ev = false.
Proof.
  intros Hr. destruct (render_NoScreen s Hr) as [Hv Ht].
  split; [exact Hv|]. split; [exact Ht|].
  intros ev Hev.
  destruct ev; try discriminate Hev; simpl; rewrite Hv, ?Ht; reflexivity.
Qed.

Lemma blank_screen_is_dead_end_witness :
  let s := App.handleCapture "" (App.handleOpenCamera initialState) in
  render s = NoScreen /\ rendered s Retake = false /\
  rendered s HeaderBack = false.
Proof.
  cbv zeta.
  destruct (blank_screen_is_dead_end
              (App.handleCapture "" (App.handleOpenCamera initialState))
              eq_refl) as (_ & _ & H).
  split; [reflexivity|]. split; apply H; reflexivity.
Defined.

Lemma nonEmptyCaptures_preview sys :
  reachableBy nonEmptyCaptures sys ->
  view (app sys) = preview -> truthy (imageSrc (app sys)) = true.
Proof.
  induction 1 as [|sys ev sys' _ IH Hallow Hstep]; [discriminate|].
  unfold nonEmptyCaptures in Hallow. apply andb_true_iff in Hallow.
  destruct Hallow as [Hui Hne].
  destruct (isLocationEvent ev) eqn:Hl.
  - destruct (step_location_event sys ev sys' Hstep Hl) as (-> & -> & _). exact IH.
  - destruct ev; try discriminate Hl; simpl in Hstep, Hui;
      try (injection Hstep as <-; simpl; discriminate).
    + injection Hstep as <-. simpl. intros _. exact Hne.
    + injection Hstep as <-. exact IH.
    + injection Hstep as <-.
      destruct (perform_handleUsePhoto sys) as [-> | [_ ->]];
        [exact IH | discriminate].
    + destruct (analysesPending sys); [discriminate|].
      injection Hstep as <-. destruct o; exact IH.
    + injection Hstep as <-. unfold App.headerBack.
      destruct (view (app sys)); discriminate.
Qed.

(** X8: if the camera never delivers an empty image reference, no state
    reached through the screen renders nothing. *)
Theorem never_blank_with_nonempty_captures (sys : System) :
  reachableBy nonEmptyCaptures sys -> render (app sys) <> NoScreen.
Proof.
  intros Hr Hblank.
  destruct (render_NoScreen _ Hblank) as (Hv & Ht).
  rewrite (nonEmptyCaptures_preview sys Hr Hv) in Ht. discriminate.
Qed.

Lemma never_blank_with_nonempty_captures_witness :
  exists sys,
    run nonEmptyCaptures initialSystem [OpenCamera; Capture "img1"] = Some sys /\
    render (app sys) <> NoScreen.
Proof.
  eexists. split; [reflexivity|].
  apply never_blank_with_nonempty_captures.
  eapply run_reachable with (evs := [OpenCamera; Capture "img1"]);
    [apply reach_init | reflexivity].
Defined.

(** ** View changes *)

(** X9: every event offered by the rendered view moves the view along
    home-camera, camera-preview, camera-home, preview-camera,
    preview-analysis or analysis-home, or leaves it; from preview no
    single event leads home, and completions of calls never change the
    view. *)
Theorem view_changes_follow_arrows (sys sys' : System) (ev : Event) :
  viaUI sys ev = true ->
  step sys ev = Some sys' ->
  arrow (view (app sys)) (view (app sys')) = true /\
  (view (app sys) = preview -> view (app sys') <> home) /\
  (fromScreen ev = false -> view (app sys') = view (app sys)).
Proof.
  unfold viaUI. intros Hui Hstep.
  assert (Hrefl : forall v, arrow v v = true) by (intros []; reflexivity).
  destruct ev; simpl in Hui, Hstep.
  - injection Hstep as <-.
    destruct supported; simpl; rewrite Hrefl; repeat split; auto;
      intros ->; discriminate.
  - destruct (positionsPending sys); [discriminate|]. injection Hstep as <-.
    simpl. rewrite Hrefl. repeat split. intros ->; discriminate.
  - destruct (positionsPending sys); [discriminate|]. injection Hstep as <-.
    simpl. rewrite Hrefl. repeat split. intros ->; discriminate.
  - injection Hstep as <-. apply View_eqb_eq in Hui. simpl. rewrite Hui.
    repeat split; discriminate.
  - injection Hstep as <-. apply View_eqb_eq in Hui. simpl. rewrite Hui.
    repeat split; discriminate.
  - injection Hstep as <-. simpl. rewrite Hrefl.
    repeat split; try discriminate. intros ->; discriminate.
  - injection Hstep as <-. apply andb_true_iff in Hui. destruct Hui as [Hv _].
    apply View_eqb_eq in Hv. simpl. rewrite Hv. repeat split; discriminate.
  - injection Hstep as <-. apply andb_true_iff in Hui. destruct Hui as [Hv Ht].
    apply View_eqb_eq in Hv.
    destruct (truthy_Some _ Ht) as (img & Hi & He).
    rewrite (handleUsePhoto_present _ img Hi He). unfold perform. simpl.
    rewrite Hv. repeat split; discriminate.
  - destruct (analysesPending sys); [discriminate|]. injection Hstep as <-.
    destruct o; simpl; rewrite Hrefl; repeat split; intros ->; discriminate.
  - injection Hstep as <-. simpl.
    destruct (view (app sys)); simpl in *; try discriminate;
      repeat split; discriminate.
  - injection Hstep as <-. unfold App.headerBack.
    destruct (view (app sys)); simpl in *; try discriminate;
      repeat split; discriminate.
Qed.

Lemma view_changes_follow_arrows_witness :
  exists sys',
    step secondPreview HeaderBack = Some sys' /\
    view (app sys') = camera /\
    arrow (view (app secondPreview)) (view (app sys')) = true.
Proof.
  eexists. split; [reflexivity|]. split; [reflexivity|].
  exact (proj1 (view_changes_follow_arrows secondPreview _ HeaderBack
                  eq_refl eq_refl)).
Defined.

(** ** The way home *)

(** X10: from every state that renders something, at most two presses on
    the screen lead to the home view with image, result and general error
    cleared, the location kept and the analyses in flight untouched. *)
Theorem home_within_two_presses (sys : System) :
  render (app sys) <> NoScreen ->
  exists evs sys',
    (length evs <= 2)%nat /\
    forallb fromScreen evs = true /\
    run viaUI sys evs = Some sys' /\
    view (app sys') = home /\
    imageSrc (app sys') = None /\
    analysisResult (app sys') = None /\
    error (app sys') = None /\
    location (app sys') = location (app sys) /\
    analysesPending sys' = analysesPending sys.
Proof.
  intros Hshown.
  destruct (view (app sys)) eqn:Hv.
  - exists [OpenCamera; BackToHome]. eexists.
    split; [simpl; lia|]. split; [reflexivity|].
    unfold run, viaUI. simpl. rewrite Hv. simpl.
    split; [reflexivity|]. repeat split.
  - exists [BackToHome]. eexists.
    split; [simpl; lia|]. split; [reflexivity|].
    unfold run, viaUI. simpl. rewrite Hv. simpl.
    split; [reflexivity|]. repeat split.
  - assert (Ht : truthy (imageSrc (app sys)) = true).
    { unfold render in Hshown. rewrite Hv in Hshown.
      destruct (imageSrc (app sys)) as [img|]; [|contradiction]. simpl.
      destruct (img =? ""); [contradiction | reflexivity]. }
    exists [Retake; BackToHome]. eexists.
    split; [simpl; lia|]. split; [reflexivity|].
    unfold run, viaUI. simpl. rewrite Hv, Ht. simpl.
    split; [reflexivity|]. repeat split.
  - exists [BackToHome]. eexists.
    split; [simpl; lia|]. split; [reflexivity|].
    unfold run, viaUI. simpl. rewrite Hv. simpl.
    split; [reflexivity|]. repeat split.
Qed.

Lemma home_within_two_presses_witness :
  exists evs sys',
    (length evs <= 2)%nat /\
    run viaUI secondPreview evs = Some sys' /\
    view (app sys') = home /\ analysisResult (app sys') = None.
Proof.
  destruct (home_within_two_presses secondPreview) as
    (evs & sys' & Hlen & _ & Hrun & Hv & _ & Hres & _).
  - discriminate.
  - exists evs, sys'. repeat split; assumption.
Defined.

(** ** A device without geolocation *)

(** X11: nothing on screen depends on [locationError]; a location request on
    a device without geolocation therefore leaves the screen exactly as it
    was and issues no call, whereas a failed position request shows its
    message in the banner of the home view. *)
Theorem unsupported_request_shows_nothing (s : AppState) :
  (forall e, render (setLocationError e s) = render s) /\
  render (fst (App.handleGetLocation false s)) = render s /\
  snd (App.handleGetLocation false s) = [] /\
  (forall code, view s = home ->
     bannerText (App.onPositionError code s)
       = Some (App.geolocationMessage code)).
Proof.
  split; [reflexivity|]. split; [reflexivity|]. split; [reflexivity|].
  intros code Hv. unfold bannerText, render. simpl. rewrite Hv.
  unfold ErrorBanner. simpl. unfold App.geolocationMessage.
  destruct (code =? 1)%Z; [reflexivity|].
  destruct (code =? 2)%Z; [reflexivity|].
  destruct (code =? 3)%Z; reflexivity.
Qed.

Lemma unsupported_request_shows_nothing_witness :
  bannerText (App.onPositionError 3 initialState)
    = Some "Location request timed out." /\
  bannerText (fst (App.handleGetLocation false initialState)) = None.
Proof.
  destruct (unsupported_request_shows_nothing initialState)
    as (_ & Hsame & _ & Hb).
  split; [exact (Hb 3%Z eq_refl)|].
  unfold bannerText. rewrite Hsame. reflexivity.
Defined.

(** ** The error banner *)

Lemma geolocationMessage_listed code :
  In (App.geolocationMessage code) geolocationMessages.
Proof.
  unfold App.geolocationMessage, geolocationMessages.
  destruct (code =? 1)%Z; [simpl; tauto|].
  destruct (code =? 2)%Z; [simpl; tauto|].
  destruct (code =? 3)%Z; simpl; tauto.
Qed.

Lemma bannerText_Some s m :
  bannerText s = Some m -> view s = home /\ error s = Some m.
Proof.
  unfold bannerText, render.
  destruct (view s); try discriminate.
  - unfold ErrorBanner. destruct (truthy (error s)); simpl; [|discriminate].
    intros H. split; [reflexivity | exact H].
  - destruct (imageSrc s) as [img|]; [|discriminate].
    destruct (img =? ""); discriminate.
Qed.

Lemma homeErrorIsGeolocation_reachable sys :
  reachableBy awaitingAnalysis sys -> homeErrorIsGeolocation (app sys).
Proof.
  induction 1 as [|sys ev sys' Hreach IH Hallow Hstep].
  - intros _. left. reflexivity.
  - pose proof (oneCallAtATime_reachable sys Hreach) as (_ & Hone & _ & _).
    unfold awaitingAnalysis in Hallow. apply andb_true_iff in Hallow.
    destruct Hallow as [Hui _].
    unfold homeErrorIsGeolocation in *.
    destruct ev; simpl in Hstep, Hui.
    + injection Hstep as <-. destruct supported; simpl;
        [intros _; left; reflexivity | exact IH].
    + destruct (positionsPending sys); [discriminate|].
      injection Hstep as <-. exact IH.
    + destruct (positionsPending sys); [discriminate|].
      injection Hstep as <-. intros _. right. exists code. reflexivity.
    + injection Hstep as <-. discriminate.
    + injection Hstep as <-. discriminate.
    + injection Hstep as <-. apply View_eqb_eq in Hui. simpl.
      rewrite Hui. discriminate.
    + injection Hstep as <-. discriminate.
    + injection Hstep as <-. apply andb_true_iff in Hui.
      destruct Hui as [_ Ht].
      destruct (truthy_Some _ Ht) as (img & Hi & He).
      rewrite (handleUsePhoto_present _ img Hi He). discriminate.
    + destruct (analysesPending sys) as [|[|n]] eqn:Hn; [discriminate| |].
      * injection Hstep as <-. destruct (Hone eq_refl) as [Hv _].
        destruct o; simpl; rewrite Hv; discriminate.
      * pose proof (oneCallAtATime_reachable sys Hreach) as (Hle & _).
        rewrite Hn in Hle. lia.
    + injection Hstep as <-. intros _. left. reflexivity.
    + injection Hstep as <-. unfold App.headerBack.
      destruct (view (app sys)); simpl; try discriminate;
        intros _; left; reflexivity.
Qed.

(** X12: for a user who does not leave the analysis view while a call is in
    flight, the error banner only ever shows one of the four geolocation
    messages: camera errors and analysis failures are cleared by
    [handleBackToHome] before the home view, the only one with a banner,
    is shown. *)
Theorem banner_shows_only_geolocation_messages (sys : System) (m : string) :
  reachableBy awaitingAnalysis sys ->
  bannerText (app sys) = Some m ->
  In m geolocationMessages.
Proof.
  intros Hr Hb. destruct (bannerText_Some _ _ Hb) as [Hv He].
  destruct (homeErrorIsGeolocation_reachable sys Hr Hv) as [Hn | (code & Hc)].
  - congruence.
  - rewrite He in Hc. injection Hc as ->. apply geolocationMessage_listed.
Qed.

Lemma banner_shows_only_geolocation_messages_witness :
  let sys := {| app := App.onPositionError 1
                         (fst (App.handleGetLocation true initialState));
                positionsPending := 0; analysesPending := 0 |} in
  bannerText (app sys) = Some "Location permission denied." /\
  In "Location permission denied." geolocationMessages.
Proof.
  cbv zeta. split; [reflexivity|].
  refine (banner_shows_only_geolocation_messages
            {| app := App.onPositionError 1
                        (fst (App.handleGetLocation true initialState));
               positionsPending := 0; analysesPending := 0 |}
            "Location permission denied." _ eq_refl).
  eapply run_reachable with (evs := [GetLocation true; PositionError 1]);
    [apply reach_init | reflexivity].
Defined.

(** ** A user who waits for the analysis *)

(** X13: for a user who does not leave the analysis view while a call is in
    flight, at most one analysis is in flight, outside the analysis view
    no result is stored and no flag is set, and a result card is shown
    only when no call is in flight. *)
Theorem waiting_user_sees_no_stale_result (sys : System) :
  reachableBy awaitingAnalysis sys ->
  (analysesPending sys <= 1)%nat /\
  (view (app sys) <> analysis ->
     analysisResult (app sys) = None /\ isAnalyzing (app sys) = false /\
     analysesPending sys = 0%nat) /\
  (forall thumbnail text tagged,
     render (app sys) = AnalysisScreen thumbnail (AIAnalysis text tagged) ->
     analysesPending sys = 0%nat /\ analysisResult (app sys) = Some text).
Proof.
  intros Hr. pose proof (oneCallAtATime_reachable sys Hr) as Inv.
  split; [exact (proj1 Inv)|]. split.
  - intros Hv. destruct (oneCallAtATime_idle sys Inv Hv) as (H0 & Hf & Hres).
    repeat split; assumption.
  - intros thumbnail text tagged Hrender.
    destruct Inv as (Hle & Hone & _ & _).
    unfold render in Hrender.
    destruct (view (app sys)); try discriminate Hrender.
    + destruct (imageSrc (app sys)) as [img|]; [|discriminate Hrender].
      destruct (img =? ""); discriminate Hrender.
    + destruct (isAnalyzing (app sys)); [discriminate Hrender|].
      destruct (analysisResult (app sys)) as [r|] eqn:Hres;
        [|discriminate Hrender].
      destruct (r =? ""); [discriminate Hrender|].
      injection Hrender as _ -> _.
      split; [|reflexivity].
      destruct (analysesPending sys) as [|[|n]]; [reflexivity| |lia].
      destruct (Hone eq_refl) as [_ Habs]. discriminate Habs.
Qed.

Lemma waiting_user_sees_no_stale_result_witness :
  (analysesPending submittedSystem <= 1)%nat.
Proof.
  refine (proj1 (waiting_user_sees_no_stale_result submittedSystem _)).
  eapply run_reachable; [apply reach_init | exact submitTrace_runs].
Defined.

(** ** A successful location request *)

(** X14: a supported location request sets the loading flag and keeps the
    previous fix; when the position arrives right after, the fix (with its
    accuracy) is stored, the flag and both errors are clear, and the home
    view shows it with the label "Refresh Location".  The success callback
    itself never touches the errors. *)
Theorem location_request_success (s : AppState) (c : GeoCoords) :
  let s1 := fst (App.handleGetLocation true s) in
  let s2 := App.onPosition c s1 in
  let acquired := {| latitude := coords_latitude c;
                longitude := coords_longitude c;
                accuracy := Some (coords_accuracy c) |} in
  isLoadingLocation s1 = true /\ location s1 = location s /\
  location s2 = Some acquired /\ isLoadingLocation s2 = false /\
  locationError s2 = None /\ error s2 = None /\
  (view s = home ->
     render s2 = HomeScreen None (Some acquired) "Refresh Location" false) /\
  (forall t, error (App.onPosition c t) = error t /\
             locationError (App.onPosition c t) = locationError t).
Proof.
  simpl. repeat split.
  intros Hv. unfold render. simpl. rewrite Hv. reflexivity.
Qed.

Lemma location_request_success_witness :
  render (App.onPosition aFix (fst (App.handleGetLocation true initialState)))
  = HomeScreen None
      (Some {| latitude := S754_zero false; longitude := S754_zero false;
               accuracy := Some (S754_zero false) |})
      "Refresh Location" false.
Proof.
  destruct (location_request_success initialState aFix)
    as (_ & _ & _ & _ & _ & _ & H & _).
  exact (H eq_refl).
Defined.

(** ** BackToHome after the photo flow *)

Lemma handleBackToHome_absorbs sys ev sys' :
  isCameraFlow ev = true ->
  step sys ev = Some sys' ->
  step sys' BackToHome = step sys BackToHome.
Proof.
  intros Hc Hstep.
  destruct ev; try discriminate Hc; simpl in Hstep;
    injection Hstep as <-; try reflexivity.
  unfold App.headerBack. destruct (view (app sys)); reflexivity.
Qed.

(** X15: [handleBackToHome] resets the photo flow.  After any sequence of
    OpenCamera, Capture, CameraError, Retake, header back and BackToHome,
    pressing BackToHome gives the same state as pressing it at once. *)
Theorem backToHome_resets_photo_flow (evs : list Event) :
  forall sys sys',
    forallb isCameraFlow evs = true ->
    run anyOrder sys evs = Some sys' ->
    step sys' BackToHome = step sys BackToHome.
Proof.
  induction evs as [|ev rest IH]; intros sys sys' Hall Hrun;
    simpl in Hall, Hrun.
  - now injection Hrun as <-.
  - apply andb_true_iff in Hall. destruct Hall as [Hev Hrest].
    destruct (step sys ev) as [mid|] eqn:Hstep; [|discriminate].
    etransitivity; [exact (IH mid sys' Hrest Hrun)|].
    exact (handleBackToHome_absorbs sys ev mid Hev Hstep).
Qed.

Lemma backToHome_resets_photo_flow_witness :
  exists sys',
    run anyOrder initialSystem
      [OpenCamera; CameraError "NotAllowedError"; Capture "img1"; HeaderBack]
      = Some sys' /\
    step sys' BackToHome = Some initialSystem.
Proof.
  eexists. split; [reflexivity|].
  exact (backToHome_resets_photo_flow
           [OpenCamera; CameraError "NotAllowedError"; Capture "img1"; HeaderBack]
           initialSystem _ eq_refl eq_refl).
Defined.
